(** * Move component of Splide 3.0.2 (src/js/components/Move/Move.ts)

    Shallow embedding of the positioning and motion engine of the slider.
    Offsets are JavaScript numbers; they are modelled as rationals [Q], so
    that the alignment offset of a centred slide (a half) is exact.  The
    collaborators of the component (Layout, Direction, Controller, Slides,
    Transition, Style, the event bus) are not part of the sources and are
    given as data in an environment record. *)

From Stdlib Require Import ZArith QArith Qround Qabs Qminmax List Sorted Bool Lia Lqa.
Import ListNotations.

Open Scope Q_scope.

(** ** Configuration and collaborators *)

(** [options.type] *)
Inductive SliderType := SLIDE | LOOP | FADE.

(** [options.focus]: ['center'], a number, or left undefined. *)
Inductive Focus := FocusCenter | FocusNum (f : Q) | FocusNone.

(** [options.trimSpace]: [false] (or undefined), [true] or ['move']. *)
Inductive TrimSpace := TrimOff | TrimOn | TrimMove.

(** [options.direction] *)
Inductive Direction := LTR | RTL | TTB.

Record Options := {
  o_type : SliderType;
  o_focus : Focus;
  o_trimSpace : TrimSpace;
  o_waitForTransition : bool;
  o_direction : Direction;
}.

(** JavaScript truthiness of [options.trimSpace]. *)
Definition trimSpace_truthy (t : TrimSpace) : bool :=
  match t with TrimOff => false | _ => true end.

Definition is_type (o : Options) (t : SliderType) : bool :=
  match o_type o, t with
  | SLIDE, SLIDE | LOOP, LOOP | FADE, FADE => true
  | _, _ => false
  end.

(** Modelled from the spec: the Direction collaborator's [orient], which
    turns an axis-neutral value into a physically signed one.  It multiplies
    by [+1] for right-to-left and by [-1] otherwise. *)
Definition orient (d : Direction) (v : Q) : Q :=
  match d with RTL => v | _ => - v end.

(** The collaborators Move reads: Layout ([slideSize], [totalSize],
    [listSize], [sliderSize]), [Controller.getEnd()] and the slide
    registry [Components.Slides.get()] (the indices, in registry order). *)
Record Env := {
  e_options : Options;
  e_slideSize : Z -> bool -> Q;
  e_totalSize : Z -> Q;
  e_listSize : Q;
  e_sliderSize : Q;
  e_end : Z;
  e_slides : list Z;
}.

(** ** Numeric helpers of [../../utils] *)

Definition qltb (x y : Q) : bool := negb (Qle_bool y x).

(** [Math.sign] *)
Definition sign (x : Q) : Q :=
  if qltb 0 x then 1 else if qltb x 0 then -1 else 0.

(** Modelled from the spec: [clamp(number, x, y)] of the utils, clamping
    between the smaller and the larger of the two bounds. *)
Definition clamp (n x y : Q) : Q := Qmin (Qmax (Qmin x y) n) (Qmax x y).

(** ** Position model *)

Section Position.
Variable env : Env.

Let options := e_options env.
Let orient' := orient (o_direction (e_options env)).

(** [offset(index)] *)
Definition offset (index : Z) : Q :=
  match o_focus options with
  | FocusCenter => (e_listSize env - e_slideSize env index true) / 2
  | FocusNum f => f * e_slideSize env index false
  | FocusNone => 0   (* +undefined * size is NaN, and NaN || 0 is 0 *)
  end.

(** [trim(position)] *)
Definition trim (position : Q) : Q :=
  if trimSpace_truthy (o_trimSpace options) && is_type options SLIDE
  then clamp position 0 (orient' (e_sliderSize env - e_listSize env))
  else position.

(** [toPosition(index, trimming)] *)
Definition toPosition (index : Z) (trimming : bool) : Q :=
  let position := orient' (e_totalSize env (index - 1) - offset index) in
  if trimming then trim position else position.

(** [toIndex(position)]: the loop over the registry; [minDistance] starts
    at [Infinity], written [None]. *)
Fixpoint toIndex_loop (slides : list Z) (index : Z) (minDistance : option Q)
    (position : Q) : Z :=
  match slides with
  | [] => index
  | slideIndex :: rest =>
      let distance := Qabs (toPosition slideIndex true - position) in
      let closer := match minDistance with
                    | None => true
                    | Some m => qltb distance m
                    end in
      if closer then toIndex_loop rest slideIndex (Some distance) position
      else index
  end.

Definition toIndex (position : Q) : Z :=
  toIndex_loop (e_slides env) 0%Z None position.

(** [getLimit(max)] *)
Definition getLimit (max : bool) : Q :=
  toPosition (if max then e_end env else 0%Z)
             (trimSpace_truthy (o_trimSpace options)).

(** [exceededLimit(max, position)]: [max] is [Some true], [Some false] or
    [None] (undefined, both bounds); [cur] is [getPosition()], used when
    [position] is omitted. *)
Definition exceededLimit (cur : Q) (max : option bool) (position : option Q)
    : bool :=
  let position := match position with Some p => p | None => cur end in
  let exceededMin :=
    negb (match max with Some true => true | _ => false end)
    && qltb (orient' position) (orient' (getLimit false)) in
  let exceededMax :=
    negb (match max with Some false => true | _ => false end)
    && qltb (orient' (getLimit true)) (orient' position) in
  exceededMin || exceededMax.

(** [loop(position)]: [waiting] is the component's flag, [cur] is
    [getPosition()].  When [sliderSize()] is [0] the rational quotient
    [Qabs excess / 0] is [0], so a fold leaves the position unchanged, where
    the JavaScript computes [0 * Infinity = NaN]; the results below that fold
    assume a positive [sliderSize()] or fold both sides alike. *)
Definition loop (waiting : bool) (cur position : Q) : Q :=
  if negb waiting && is_type options LOOP then
    let diff := orient' (position - cur) in
    let exceededMin := exceededLimit cur (Some false) (Some position)
                       && qltb diff 0 in
    let exceededMax := exceededLimit cur (Some true) (Some position)
                       && qltb 0 diff in
    if exceededMin || exceededMax then
      let excess := position - getLimit exceededMax in
      let size := e_sliderSize env in
      position - sign excess * size * inject_Z (Qceiling (Qabs excess / size))
    else position
  else position.

End Position.

(** ** Concrete geometries *)

(** Modelled from the spec: the Layout collaborator for [n] slides of width
    [w] with no gap in a viewport of width [v]; [totalSize(i)] is the size
    of the slides [0..i] (zero before the first slide) and [sliderSize()]
    the size of the whole content.  [end_] is [Controller.getEnd()], the
    last reachable index, and the registry holds the indices [0..n-1]. *)
Definition uniform (o : Options) (n : nat) (w v : Q) (end_ : Z) : Env := {|
  e_options := o;
  e_slideSize := fun i _ =>
    if (0 <=? i)%Z && (i <? Z.of_nat n)%Z then w else 0;
  e_totalSize := fun i =>
    if (i <? 0)%Z then 0 else w * inject_Z (Z.min (i + 1) (Z.of_nat n));
  e_listSize := v;
  e_sliderSize := w * inject_Z (Z.of_nat n);
  e_end := end_;
  e_slides := map Z.of_nat (seq 0 n);
|}.

(** ** The motion state machine *)

(** [Splide.state] *)
Inductive MotionState := IDLE | MOVING.

(** An optional callback is identified by a number. *)
Definition Callback := option nat.

(** What Move sends to its collaborators, in order. *)
Inductive Effect :=
  | EmitMove (index prev dest : Z)          (* emit( EVENT_MOVE, ... ) *)
  | EmitMoved (index prev dest : Z)         (* emit( EVENT_MOVED, ... ) *)
  | TransitionStart (dest : Z)              (* Components.Transition.start *)
  | TransitionCancel                        (* Components.Transition.cancel *)
  | Rule (position : Q)                     (* Components.Style.ruleBy *)
  | ControllerGo (forward : bool) (allowLoop : bool) (cb : Callback)
  | CallCallback (cb : nat)                 (* callback() *)
  | ScrollCancel                            (* Components.Scroll.cancel *)
  | EmitRepositioned.                       (* emit( EVENT_REPOSITIONED ) *)

(** The completion closure handed to [Transition.start], with the values it
    captures. *)
Record Pending := {
  pd_dest : Z;
  pd_index : Z;
  pd_prev : Z;
  pd_callback : Callback;
  pd_position : Q;
  pd_looping : bool;
}.

(** [ms_position] is the offset [getPosition()] reads: the one last written
    by [translate], or the one the transition executor left the list at. *)
Record MState := {
  ms_state : MotionState;
  ms_waiting : bool;
  ms_position : Q;
  ms_pending : option Pending;
  ms_log : list Effect;
}.

(** [let waiting: boolean] starts undefined, which is falsy. *)
Definition init (position : Q) : MState :=
  {| ms_state := IDLE; ms_waiting := false; ms_position := position;
     ms_pending := None; ms_log := [] |}.

Definition set_state (s : MState) (m : MotionState) : MState :=
  {| ms_state := m; ms_waiting := ms_waiting s; ms_position := ms_position s;
     ms_pending := ms_pending s; ms_log := ms_log s |}.

Definition set_waiting (s : MState) (w : bool) : MState :=
  {| ms_state := ms_state s; ms_waiting := w; ms_position := ms_position s;
     ms_pending := ms_pending s; ms_log := ms_log s |}.

Definition set_position (s : MState) (p : Q) : MState :=
  {| ms_state := ms_state s; ms_waiting := ms_waiting s; ms_position := p;
     ms_pending := ms_pending s; ms_log := ms_log s |}.

Definition set_pending (s : MState) (p : option Pending) : MState :=
  {| ms_state := ms_state s; ms_waiting := ms_waiting s;
     ms_position := ms_position s; ms_pending := p; ms_log := ms_log s |}.

Definition emit (s : MState) (e : Effect) : MState :=
  {| ms_state := ms_state s; ms_waiting := ms_waiting s;
     ms_position := ms_position s; ms_pending := ms_pending s;
     ms_log := ms_log s ++ [e] |}.

Section Motion.
Variable env : Env.

Let options := e_options env.

(** [isBusy()] *)
Definition isBusy (s : MState) : bool := ms_waiting s.

(** [translate(position, preventLoop)] *)
Definition translate (s : MState) (position : Q) (preventLoop : bool)
    : MState :=
  let p := if preventLoop then position
           else loop env (ms_waiting s) (ms_position s) position in
  set_position (emit s (Rule p)) p.

(** [jump(index)] *)
Definition jump (s : MState) (index : Z) : MState :=
  translate s (toPosition env index true) false.

(** [move(dest, index, prev, callback)] *)
Definition move (s : MState) (dest index prev : Z) (callback : Callback)
    : MState :=
  if negb (isBusy s) then
    let position := ms_position s in
    let looping := negb (Z.eqb dest index) in
    let s1 := set_waiting s (looping || o_waitForTransition options) in
    let s2 := set_state s1 MOVING in
    let s3 := emit s2 (EmitMove index prev dest) in
    let s4 := emit s3 (TransitionStart dest) in
    set_pending s4 (Some {| pd_dest := dest; pd_index := index;
                            pd_prev := prev; pd_callback := callback;
                            pd_position := position; pd_looping := looping |})
  else s.

(** The body of the completion closure of [move]. *)
Definition on_complete (s : MState) (p : Pending) : MState :=
  let s1 := if pd_looping p then jump s (pd_index p) else s in
  let s2 := set_waiting s1 false in
  let s3 := set_state s2 IDLE in
  let s4 := emit s3 (EmitMoved (pd_index p) (pd_prev p) (pd_dest p)) in
  if (match o_trimSpace options with TrimMove => true | _ => false end)
     && negb (Z.eqb (pd_dest p) (pd_prev p))
     && Qeq_bool (pd_position p) (ms_position s4)
  then emit s4 (ControllerGo (Z.gtb (pd_dest p) (pd_prev p)) false
                             (pd_callback p))
  else match pd_callback p with
       | Some c => emit s4 (CallCallback c)
       | None => s4
       end.

(** Modelled from the spec: the transition executor signals completion,
    leaving the list at [position_after]; it runs the stored closure once. *)
Definition complete (s : MState) (position_after : Q) : MState :=
  match ms_pending s with
  | Some p => on_complete (set_pending (set_position s position_after) None) p
  | None => s
  end.

(** [cancel()]; the executor's [cancel] drops the stored closure (modelled
    from the spec: cancellation emits no completion). *)
Definition cancel (s : MState) : MState :=
  let s1 := set_waiting s false in
  let s2 := set_pending (emit s1 TransitionCancel) None in
  translate s2 (ms_position s2) false.

(** [reposition()], run on [mounted], [resized], [updated] and [refresh];
    [index] is [Splide.index]. *)
Definition reposition (s : MState) (index : Z) : MState :=
  emit (jump (emit s ScrollCancel) index) EmitRepositioned.

End Motion.

(** The operations of the component, for runs of several calls. *)
Inductive Op :=
  | OpMove (dest index prev : Z) (cb : Callback)
  | OpJump (index : Z)
  | OpTranslate (position : Q) (preventLoop : bool)
  | OpCancel
  | OpComplete (position_after : Q)
  | OpReposition (index : Z).

Definition step (env : Env) (s : MState) (op : Op) : MState :=
  match op with
  | OpMove d i p cb => move env s d i p cb
  | OpJump i => jump env s i
  | OpTranslate p pl => translate env s p pl
  | OpCancel => cancel env s
  | OpComplete pa => complete env s pa
  | OpReposition i => reposition env s i
  end.

Definition run (env : Env) (s : MState) (ops : list Op) : MState :=
  fold_left (step env) ops s.

(** How the Waiting flag, the pending completion and [Splide.state] hang
    together: Waiting implies a pending completion, a pending completion of
    a looping move implies Waiting, and a pending completion implies
    [MOVING]. *)
Definition motion_inv (s : MState) : Prop :=
  (ms_waiting s = true -> ms_pending s <> None) /\
  (forall p : Pending,
     ms_pending s = Some p -> pd_looping p = true -> ms_waiting s = true) /\
  (ms_pending s <> None -> ms_state s = MOVING).

(** ** Configurations of the tests *)

Definition opts (t : SliderType) (f : Focus) (ts : TrimSpace) (wft : bool)
    : Options :=
  {| o_type := t; o_focus := f; o_trimSpace := ts;
     o_waitForTransition := wft; o_direction := LTR |}.

(** [init( { width: 200, height: 100 } )]: five slides of 200px in a 200px
    viewport, default options ([trimSpace: true], [waitForTransition: true]). *)
Definition env_slide : Env := uniform (opts SLIDE FocusNone TrimOn true) 5 200 200 4.

(** [init( { type: 'loop', width: 200, height: 100 } )] with [n] slides. *)
Definition env_loop (n : nat) : Env :=
  uniform (opts LOOP FocusNone TrimOn true) n 200 200 (Z.of_nat n - 1).

(** [trimSpace: 'move'] variant of [env_slide]. *)
Definition env_move : Env := uniform (opts SLIDE FocusNone TrimMove true) 5 200 200 4.

(** [waitForTransition: false] variant of [env_slide]. *)
Definition env_nowait : Env := uniform (opts SLIDE FocusNone TrimOn false) 5 200 200 4.

(** Eight slides of 100px in a 400px viewport, [focus: 'center']. *)
Definition env_center : Env := uniform (opts SLIDE FocusCenter TrimOn true) 8 100 400 7.

(** Three slides of 100px in a 200px viewport, [focus: 0]. *)
Definition env_tail : Env := uniform (opts SLIDE (FocusNum 0) TrimOn true) 3 100 200 2.

(** ** Basic facts *)

Lemma qltb_spec (x y : Q) : qltb x y = true <-> x < y.
Proof.
  unfold qltb. rewrite negb_true_iff. split.
  - intro H. apply Qnot_le_lt. intro Hle. apply Qle_bool_iff in Hle. congruence.
  - intro H. destruct (Qle_bool y x) eqn:E; [|reflexivity].
    apply Qle_bool_iff in E. exfalso. apply (Qlt_not_le x y); assumption.
Qed.

Lemma qltb_false (x y : Q) : qltb x y = false <-> y <= x.
Proof.
  unfold qltb. rewrite negb_false_iff. apply Qle_bool_iff.
Qed.

Lemma orient_minus (d : Direction) (a b : Q) :
  orient d (a - b) == orient d a - orient d b.
Proof. destruct d; simpl; ring. Qed.

Lemma orient_involutive (d : Direction) (a : Q) : orient d (orient d a) == a.
Proof. destruct d; simpl; ring. Qed.

Lemma Qabs_orient (d : Direction) (a : Q) : Qabs (orient d a) == Qabs a.
Proof. destruct d; simpl; [apply Qabs_opp | reflexivity | apply Qabs_opp]. Qed.

Lemma emit_log (s : MState) (e : Effect) : ms_log (emit s e) = ms_log s ++ [e].
Proof. reflexivity. Qed.

Lemma translate_waiting (env : Env) (s : MState) (p : Q) (pl : bool) :
  ms_waiting (translate env s p pl) = ms_waiting s.
Proof. reflexivity. Qed.

Lemma wrap_at_current (env : Env) (w : bool) (cur : Q) : loop env w cur cur = cur.
Proof.
  unfold loop.
  destruct (negb w && is_type (e_options env) LOOP); [|reflexivity].
  assert (Hd : qltb (orient (o_direction (e_options env)) (cur - cur)) 0 = false
            /\ qltb 0 (orient (o_direction (e_options env)) (cur - cur)) = false).
  { split; apply qltb_false; rewrite orient_minus; lra. }
  destruct Hd as [H1 H2]. rewrite H1, H2, !andb_false_r. reflexivity.
Qed.

(** ** Motion orchestrator *)

(** C1 (counterexample): the MotionState is [MOVING] after an accepted move
    with [waitForTransition: false] and [dest = index], yet a second [move]
    is accepted: it emits [EVENT_MOVE] and starts a transition. *)
Lemma C1_move_while_moving_accepted :
  let s1 := move env_nowait (init 0) 1 1 0 None in
  ms_state s1 = MOVING /\
  ms_log (move env_nowait s1 2 2 1 None)
    = ms_log s1 ++ [EmitMove 2 1 2; TransitionStart 2].
Proof. vm_compute. split; reflexivity. Qed.

(** C1 (amended): [move] is a no-op exactly when the Waiting flag is set
    ([isBusy()]), whatever the MotionState; otherwise it emits
    [EVENT_MOVE], starts the transition and enters [MOVING]. *)
Theorem C1_move_gate_is_waiting :
  forall (env : Env) (s : MState) (dest index prev : Z) (cb : Callback),
    (isBusy s = true <-> move env s dest index prev cb = s) /\
    (isBusy s = false ->
       ms_state (move env s dest index prev cb) = MOVING /\
       ms_log (move env s dest index prev cb)
         = ms_log s ++ [EmitMove index prev dest; TransitionStart dest]).
Proof.
  intros env s dest index prev cb. unfold move.
  destruct (isBusy s) eqn:B; simpl.
  - split; [tauto | discriminate].
  - split.
    + split; [discriminate|]. intro H.
      apply (f_equal (fun x => length (ms_log x))) in H. simpl in H.
      rewrite !length_app in H. simpl in H. lia.
    + intros _. split; [reflexivity|]. simpl. rewrite <- app_assoc. reflexivity.
Qed.

Lemma C1_move_gate_is_waiting_witness :
  isBusy (move env_slide (init 0) 1 1 0 None) = true /\
  move env_slide (move env_slide (init 0) 1 1 0 None) 2 2 1 None
    = move env_slide (init 0) 1 1 0 None.
Proof.
  split; [vm_compute; reflexivity|].
  apply (proj1 (C1_move_gate_is_waiting env_slide _ 2 2 1 None)).
  vm_compute. reflexivity.
Defined.

(** C2 (counterexample): with [trimSpace: 'move'], a move from 0 to 1 that
    leaves the offset where it was ends with a follow-up [Controller.go]
    that carries the original callback (here callback 7). *)
Lemma C2_follow_up_carries_callback :
  let s1 := move env_move (init 0) 1 1 0 (Some 7%nat) in
  ms_log (complete env_move s1 0)
    = [EmitMove 1 0 1; TransitionStart 1; EmitMoved 1 0 1;
       ControllerGo true false (Some 7%nat)].
Proof. vm_compute. reflexivity. Qed.

(** C2 (amended): the completion handler of [move(dest, index, prev,
    callback)] jumps back to [index] when a clone was used, emits
    [EVENT_MOVED], and then, when [trimSpace] is ['move'], [dest <> prev] and
    the offset read before the move equals the offset after completion,
    issues [Controller.go] in the direction [dest > prev] with the original
    callback passed along; otherwise it invokes the callback, if any. *)
Theorem C2_completion_handler :
  forall (env : Env) (s : MState) (position_after : Q) (p : Pending),
    ms_pending s = Some p ->
    let s' := complete env s position_after in
    let follow_up :=
      ((match o_trimSpace (e_options env) with TrimMove => true | _ => false end)
       && negb (pd_dest p =? pd_prev p)%Z
       && Qeq_bool (pd_position p) (ms_position s'))%bool in
    ms_log s'
      = ms_log s
        ++ (if pd_looping p then [Rule (ms_position s')] else [])
        ++ EmitMoved (pd_index p) (pd_prev p) (pd_dest p)
           :: (if follow_up
               then [ControllerGo (pd_dest p >? pd_prev p)%Z false (pd_callback p)]
               else match pd_callback p with
                    | Some c => [CallCallback c]
                    | None => []
                    end).
Proof.
  intros env s pa p H. cbv zeta. unfold complete. rewrite H. unfold on_complete.
  set (c := ((match o_trimSpace (e_options env) with TrimMove => true | _ => false end)
             && negb (pd_dest p =? pd_prev p)%Z)%bool).
  destruct (pd_looping p); simpl;
    match goal with |- context [Qeq_bool (pd_position p) ?q] =>
      destruct (c && Qeq_bool (pd_position p) q)%bool eqn:E end;
    destruct (pd_callback p); simpl;
    rewrite ?E; simpl; rewrite <- ?app_assoc; reflexivity.
Qed.

Lemma C2_completion_handler_witness :
  ms_pending (move env_move (init 0) 1 1 0 (Some 7%nat))
    = Some {| pd_dest := 1; pd_index := 1; pd_prev := 0;
              pd_callback := Some 7%nat; pd_position := 0; pd_looping := false |}
  /\ ms_log (complete env_move (move env_move (init 0) 1 1 0 (Some 7%nat)) 0)
     = [EmitMove 1 0 1; TransitionStart 1; EmitMoved 1 0 1;
        ControllerGo true false (Some 7%nat)].
Proof.
  split; [reflexivity|].
  rewrite (C2_completion_handler env_move
             (move env_move (init 0) 1 1 0 (Some 7%nat)) 0
             {| pd_dest := 1; pd_index := 1; pd_prev := 0;
                pd_callback := Some 7%nat; pd_position := 0; pd_looping := false |}
             eq_refl).
  vm_compute. reflexivity.
Defined.

(** C7 (counterexample): a looping move (to the clone index 5 for slide 0)
    sets the Waiting flag; [cancel()] clears it although the transition
    executor never signalled completion and no [EVENT_MOVED] was emitted. *)
Lemma C7_cancel_clears_waiting :
  let s1 := move (env_loop 5) (init 0) 5 0 (-1) None in
  isBusy s1 = true /\
  isBusy (cancel (env_loop 5) s1) = false /\
  ms_pending (cancel (env_loop 5) s1) = None /\
  ~ In (EmitMoved 0 (-1) 5) (ms_log (cancel (env_loop 5) s1)).
Proof.
  vm_compute. split; [reflexivity|]. split; [reflexivity|]. split; [reflexivity|].
  intros [H|[H|[H|[H|H]]]]; discriminate || contradiction.
Qed.

(** C7 (amended): [isBusy()] is false initially; after an accepted [move]
    it is [(dest <> index) || waitForTransition]; it becomes false when the
    completion handler runs or when [cancel()] is called; [jump] and
    [translate] leave it as it is, and so does a completion signal when no
    transition is pending. *)
Theorem C7_isBusy_lifecycle :
  (forall p : Q, isBusy (init p) = false) /\
  (forall (env : Env) (s : MState) (dest index prev : Z) (cb : Callback),
     isBusy s = false ->
     isBusy (move env s dest index prev cb)
       = (negb (dest =? index)%Z || o_waitForTransition (e_options env))%bool) /\
  (forall (env : Env) (s : MState) (pa : Q),
     ms_pending s <> None -> isBusy (complete env s pa) = false) /\
  (forall (env : Env) (s : MState) (pa : Q),
     ms_pending s = None -> complete env s pa = s) /\
  (forall (env : Env) (s : MState), isBusy (cancel env s) = false) /\
  (forall (env : Env) (s : MState) (i : Z), isBusy (jump env s i) = isBusy s) /\
  (forall (env : Env) (s : MState) (p : Q) (pl : bool),
     isBusy (translate env s p pl) = isBusy s).
Proof.
  split; [reflexivity|]. split.
  { intros env s dest index prev cb H. unfold move. rewrite H. reflexivity. }
  split.
  { intros env s pa H. unfold complete. destruct (ms_pending s) as [p|]; [|congruence].
    unfold on_complete.
    destruct ((match o_trimSpace (e_options env) with TrimMove => true | _ => false end)
              && _ && _)%bool;
      [reflexivity | destruct (pd_callback p); reflexivity]. }
  split.
  { intros env s pa H. unfold complete. rewrite H. reflexivity. }
  split; [reflexivity|]. split; reflexivity.
Qed.

Lemma C7_isBusy_lifecycle_witness :
  isBusy (move (env_loop 5) (init 0) 5 0 (-1) None) = true /\
  isBusy (complete (env_loop 5) (move (env_loop 5) (init 0) 5 0 (-1) None) (-1000))
    = false.
Proof.
  destruct C7_isBusy_lifecycle as [_ [Hm [Hc _]]]. split.
  - rewrite (Hm (env_loop 5) (init 0) 5%Z 0%Z (-1)%Z None eq_refl). reflexivity.
  - apply Hc. discriminate.
Defined.

(** C10: wrapping the current offset returns it unchanged, whatever the
    Waiting flag and the limits; [cancel()] clears the Waiting flag, cancels
    the transition and writes exactly the current offset back. *)
Theorem C10_wrap_current_identity :
  forall (env : Env),
    (forall (w : bool) (cur : Q), loop env w cur cur = cur) /\
    (forall s : MState,
       ms_position (cancel env s) = ms_position s /\
       ms_waiting (cancel env s) = false /\
       ms_log (cancel env s) = ms_log s ++ [TransitionCancel; Rule (ms_position s)]).
Proof.
  intros env. split; [apply wrap_at_current|].
  intros s. unfold cancel, translate. simpl.
  rewrite wrap_at_current. simpl. rewrite <- app_assoc.
  split; [reflexivity|]. split; reflexivity.
Qed.

(** ** Position model and limits *)

Lemma min_facts (x y : Q) :
  Qmin x y <= x /\ Qmin x y <= y /\ (Qmin x y == x \/ Qmin x y == y).
Proof.
  pose proof (Q.le_min_l x y). pose proof (Q.le_min_r x y).
  destruct (Q.min_spec x y) as [[H1 H2]|[H1 H2]]; auto.
Qed.

Lemma max_facts (x y : Q) :
  x <= Qmax x y /\ y <= Qmax x y /\ (Qmax x y == x \/ Qmax x y == y).
Proof.
  pose proof (Q.le_max_l x y). pose proof (Q.le_max_r x y).
  destruct (Q.max_spec x y) as [[H1 H2]|[H1 H2]]; auto.
Qed.

(** [clamp(n, x, y)] lies between the bounds, is [n] when [n] does, and is
    the nearest bound otherwise. *)
Lemma clamp_spec (n x y : Q) :
  Qmin x y <= clamp n x y <= Qmax x y /\
  (Qmin x y <= n <= Qmax x y -> clamp n x y == n) /\
  (n < Qmin x y -> clamp n x y == Qmin x y) /\
  (Qmax x y < n -> clamp n x y == Qmax x y).
Proof.
  unfold clamp.
  destruct (min_facts x y) as [A1 [A2 A3]].
  destruct (max_facts x y) as [B1 [B2 B3]].
  destruct (max_facts (Qmin x y) n) as [C1 [C2 C3]].
  destruct (min_facts (Qmax (Qmin x y) n) (Qmax x y)) as [D1 [D2 D3]].
  destruct A3, B3, C3, D3; repeat split; intros; lra.
Qed.

(** C9: [toPosition(index, true)] clamps the untrimmed offset into the
    interval between [0] and [orient(sliderSize() - listSize())] when
    [trimSpace] is truthy ([true] or ['move']) and the type is ['slide'],
    and returns the untrimmed offset unchanged otherwise. *)
Theorem C9_trim_clamps_only_in_slide_mode :
  forall (env : Env) (i : Z),
    let b := orient (o_direction (e_options env))
                    (e_sliderSize env - e_listSize env) in
    let u := toPosition env i false in
    (trimSpace_truthy (o_trimSpace (e_options env))
     && is_type (e_options env) SLIDE = true ->
       (Qmin 0 b <= toPosition env i true <= Qmax 0 b) /\
       (Qmin 0 b <= u <= Qmax 0 b -> toPosition env i true == u) /\
       (u < Qmin 0 b -> toPosition env i true == Qmin 0 b) /\
       (Qmax 0 b < u -> toPosition env i true == Qmax 0 b)) /\
    (trimSpace_truthy (o_trimSpace (e_options env))
     && is_type (e_options env) SLIDE = false ->
       toPosition env i true = u).
Proof.
  intros env i b u. unfold u, toPosition, trim. split; intro H; rewrite H.
  - apply clamp_spec.
  - reflexivity.
Qed.

Lemma C9_trim_clamps_only_in_slide_mode_witness :
  toPosition env_tail 2 true == toPosition env_tail 1 true /\
  toPosition (env_loop 5) 7 true = toPosition (env_loop 5) 7 false.
Proof.
  split.
  - destruct (C9_trim_clamps_only_in_slide_mode env_tail 2) as [H _].
    destruct (H eq_refl) as [_ [_ [H3 _]]].
    eapply Qeq_trans; [apply H3; vm_compute; reflexivity | vm_compute; reflexivity].
  - apply (proj2 (C9_trim_clamps_only_in_slide_mode (env_loop 5) 7) eq_refl).
Defined.

(** C8: the limit is inclusive: the minimum limit itself does not exceed
    it, while an offset [eps > 0] past it in the direction of travel
    ([orient(position) = orient(limit) - eps]) does; with no bound given
    ([max] undefined) [exceededLimit] is the disjunction of both tests, and
    with no position given it tests the current one. *)
Theorem C8_limit_inclusive :
  forall (env : Env) (cur : Q),
    let d := o_direction (e_options env) in
    exceededLimit env cur (Some false) (Some (getLimit env false)) = false /\
    (forall eps : Q, 0 < eps ->
       exceededLimit env cur (Some false)
         (Some (getLimit env false - orient d eps)) = true) /\
    (forall p : Q,
       exceededLimit env cur None (Some p)
       = (exceededLimit env cur (Some false) (Some p)
          || exceededLimit env cur (Some true) (Some p))%bool) /\
    (forall max : option bool,
       exceededLimit env cur max None = exceededLimit env cur max (Some cur)).
Proof.
  intros env cur d. unfold exceededLimit. simpl. split; [|split; [|split]].
  - rewrite orb_false_r. apply qltb_false. lra.
  - intros eps He. rewrite orb_false_r. apply qltb_spec.
    fold d. rewrite orient_minus, orient_involutive. lra.
  - intros p. rewrite !orb_false_r. reflexivity.
  - reflexivity.
Qed.

Lemma C8_limit_inclusive_witness :
  exceededLimit env_slide 0 (Some false) (Some 10) = true.
Proof.
  destruct (C8_limit_inclusive env_slide 0) as [_ [H _]].
  pose proof (H 10 eq_refl) as H10. vm_compute in H10. vm_compute. exact H10.
Defined.

(** ** Loop wrapper *)

Lemma loop_eq_current (env : Env) (w : bool) (cur x : Q) :
  x == cur -> loop env w cur x = x.
Proof.
  intro Hx. unfold loop.
  destruct (negb w && is_type (e_options env) LOOP); [|reflexivity].
  assert (Hd : qltb (orient (o_direction (e_options env)) (x - cur)) 0 = false
            /\ qltb 0 (orient (o_direction (e_options env)) (x - cur)) = false).
  { destruct (o_direction (e_options env)); cbn [orient];
    split; apply qltb_false; lra. }
  destruct Hd as [H1 H2]. rewrite H1, H2, !andb_false_r. reflexivity.
Qed.


Lemma Qceiling_one (q : Q) : 0 < q -> q <= 1 -> Qceiling q = 1%Z.
Proof.
  intros H0 H1.
  pose proof (Qle_ceiling q) as A. pose proof (Qceiling_lt q) as B.
  assert (C : (0 < Qceiling q)%Z).
  { rewrite Zlt_Qlt. change (inject_Z 0) with 0. lra. }
  assert (D : (Qceiling q - 1 < 1)%Z).
  { rewrite Zlt_Qlt. change (inject_Z 1) with 1. lra. }
  lia.
Qed.

(** C4: in loop mode with the Waiting flag clear, a requested offset that
    passes the minimum limit while moving toward it (or the maximum limit
    while moving toward it) is moved back by [sign(excess) *
    ceil(|excess| / sliderSize())] content lengths, [excess] being its
    distance past that limit; in the test [can loop the slider if it exceeds
    bounds] ([n] slides of 200px, the list at offset 0 after mount's
    [jump(0)]), [translate(200)] renders [-(200 * (n - 1))]. *)
Theorem C4_wrap_folds_excess :
  (forall (env : Env) (cur x : Q),
     is_type (e_options env) LOOP = true ->
     let d := o_direction (e_options env) in
     let S := e_sliderSize env in
     ((orient d x < orient d (getLimit env false) /\ orient d (x - cur) < 0) ->
        loop env false cur x
        = x - sign (x - getLimit env false) * S
              * inject_Z (Qceiling (Qabs (x - getLimit env false) / S))) /\
     ((orient d (getLimit env true) < orient d x /\ 0 < orient d (x - cur)) ->
        loop env false cur x
        = x - sign (x - getLimit env true) * S
              * inject_Z (Qceiling (Qabs (x - getLimit env true) / S)))) /\
  (forall n : nat, (1 <= n)%nat ->
     let s0 := jump (env_loop n) (init 0) 0 in
     ms_position (translate (env_loop n) s0 200 false)
     == - (200 * (inject_Z (Z.of_nat n) - 1))).
Proof.
  split.
  - intros env cur x Hl d S. unfold loop, exceededLimit. rewrite Hl.
    cbv beta iota zeta delta [negb andb orb]. fold d.
    split; intros [Hx Hd].
    + assert (E : qltb 0 (orient d (x - cur)) = false) by (apply qltb_false; lra).
      apply qltb_spec in Hx. apply qltb_spec in Hd.
      rewrite Hx, Hd, E. cbv beta iota.
      destruct (qltb (orient d (getLimit env true)) (orient d x)); reflexivity.
    + assert (E : qltb (orient d (x - cur)) 0 = false) by (apply qltb_false; lra).
      apply qltb_spec in Hx. apply qltb_spec in Hd. rewrite Hx, Hd, E. cbv beta iota.
      destruct (qltb (orient d x) (orient d (getLimit env false))); reflexivity.
  - intros n Hn s0.
    assert (Hs0 : ms_position s0 = toPosition (env_loop n) 0 true).
    { unfold s0, jump, translate. simpl. apply loop_eq_current.
      unfold toPosition, trim, offset. simpl. lra. }
    unfold translate. cbn [ms_position set_position]. rewrite Hs0.
    unfold loop, exceededLimit. cbv beta iota zeta delta [negb andb orb].
    assert (HN : 1 <= inject_Z (Z.of_nat n)).
    { change 1 with (inject_Z 1). rewrite <- Zle_Qle. lia. }
    assert (HL0 : toPosition (env_loop n) 0 true == 0).
    { unfold toPosition, trim, offset. simpl. lra. }
    change (getLimit (env_loop n) false) with (toPosition (env_loop n) 0 true).
    change (e_sliderSize (env_loop n)) with (200 * inject_Z (Z.of_nat n)).
    change (o_direction (e_options (env_loop n))) with LTR. cbn [orient].
    change (is_type (e_options (env_loop n)) LOOP) with true.
    replace (ms_waiting s0) with false by reflexivity.
    set (L0 := toPosition (env_loop n) 0 true) in *.
    assert (E1 : qltb (Qopp 200) (- L0) = true) by (apply qltb_spec; lra).
    assert (E2 : qltb (- (200 - L0)) 0 = true) by (apply qltb_spec; lra).
    assert (E3 : qltb 0 (- (200 - L0)) = false) by (apply qltb_false; lra).
    rewrite E1, E2, E3. cbv beta iota.
    destruct (qltb (- getLimit (env_loop n) true) (Qopp 200)); cbv beta iota;
      change (getLimit (env_loop n) false) with L0.
    all: assert (Hs : sign (200 - L0) = 1)
           by (unfold sign; replace (qltb 0 (200 - L0)) with true
                 by (symmetry; apply qltb_spec; lra); reflexivity).
    all: assert (Hc : Qceiling (Qabs (200 - L0) / (200 * inject_Z (Z.of_nat n))) = 1%Z).
    all: try (assert (Ha : Qabs (200 - L0) == 200) by (rewrite Qabs_pos; lra);
              apply Qceiling_one;
              [ apply Qlt_shift_div_l; [lra|]; rewrite Ha; lra
              | apply Qle_shift_div_r; [lra|]; rewrite Ha; lra ]).
    all: rewrite Hs, Hc; change (inject_Z 1) with 1; lra.
Qed.

Lemma C4_wrap_folds_excess_witness :
  loop (env_loop 5) false 0 200 = 200 - 1 * 1000 * inject_Z 1 /\
  ms_position (translate (env_loop 5) (jump (env_loop 5) (init 0) 0) 200 false)
    == -800.
Proof.
  destruct C4_wrap_folds_excess as [Hg Hc]. split.
  - destruct (Hg (env_loop 5) 0 200 eq_refl) as [Hmin _].
    rewrite Hmin by (split; vm_compute; reflexivity). vm_compute. reflexivity.
  - eapply Qeq_trans; [apply (Hc 5%nat); lia | vm_compute; reflexivity].
Defined.

Lemma loop_shift (env : Env) (w : bool) (cur y : Q) :
  exists k : Z, loop env w cur y == y + inject_Z k * e_sliderSize env.
Proof.
  unfold loop.
  destruct (negb w && is_type (e_options env) LOOP);
    [| exists 0%Z; change (inject_Z 0) with 0; ring].
  match goal with |- context [if ?c then _ else y] => destruct c end;
    [| exists 0%Z; change (inject_Z 0) with 0; ring].
  match goal with |- context [Qceiling ?q] => set (c := Qceiling q) end.
  match goal with |- context [sign ?e] => unfold sign; destruct (qltb 0 e), (qltb e 0) end.
  - exists (- c)%Z. rewrite inject_Z_opp. ring.
  - exists (- c)%Z. rewrite inject_Z_opp. ring.
  - exists c. ring.
  - exists 0%Z. change (inject_Z 0) with 0. ring.
Qed.

Lemma loop_within (env : Env) (w : bool) (cur y : Q) :
  exceededLimit env cur None (Some y) = false -> loop env w cur y = y.
Proof.
  unfold loop, exceededLimit. cbv beta iota zeta delta [negb andb orb].
  intro H.
  destruct (qltb (orient (o_direction (e_options env)) y)
                 (orient (o_direction (e_options env)) (getLimit env false)));
    [discriminate|].
  destruct (qltb (orient (o_direction (e_options env)) (getLimit env true))
                 (orient (o_direction (e_options env)) y));
    [discriminate|].
  destruct w, (is_type (e_options env) LOOP); reflexivity.
Qed.

(** C5 (counterexample): five looped slides of 200px, list at 0: wrapping
    100 gives -900, which is past the maximum limit -800, and wrapping
    again gives 100 back. *)
Lemma C5_wrap_not_idempotent :
  loop (env_loop 5) false 0 100 == -900 /\
  loop (env_loop 5) false 0 (loop (env_loop 5) false 0 100) == 100.
Proof. split; vm_compute; reflexivity. Qed.

(** C5 (amended): wrapping twice differs from wrapping once by a whole
    number of content lengths ([sliderSize()]), and equals it whenever the
    once-wrapped offset lies within the limits. *)
Theorem C5_wrap_twice :
  forall (env : Env) (w : bool) (cur x : Q),
    (exists k : Z,
       loop env w cur (loop env w cur x)
       == loop env w cur x + inject_Z k * e_sliderSize env) /\
    (exceededLimit env cur None (Some (loop env w cur x)) = false ->
       loop env w cur (loop env w cur x) = loop env w cur x).
Proof.
  intros env w cur x. split.
  - apply loop_shift.
  - apply loop_within.
Qed.

Lemma C5_wrap_twice_witness :
  loop (env_loop 5) false 0 (loop (env_loop 5) false 0 200)
  = loop (env_loop 5) false 0 200.
Proof.
  apply (proj2 (C5_wrap_twice (env_loop 5) false 0 200)).
  vm_compute. reflexivity.
Defined.

(** ** Offset to index *)


Lemma toIndex_loop_cons (env : Env) (a : Z) (rest : list Z) (idx : Z)
    (m : option Q) (x : Q) :
  toIndex_loop env (a :: rest) idx m x
  = if match m with
       | None => true
       | Some m => qltb (Qabs (toPosition env a true - x)) m
       end
    then toIndex_loop env rest a (Some (Qabs (toPosition env a true - x))) x
    else idx.
Proof. reflexivity. Qed.

Section RoundTrip.
Variable env : Env.
Variable x : Q.





End RoundTrip.






(** C6 (the code at the failing input): eight slides of 100px in a 400px
    viewport with [focus: 'center']: trimming maps slides 0 and 1 both to
    0, so the scan stops at slide 1 and [toIndex(-50)] is 0, although slide
    2 lies exactly at -50.  The test values of [can convert the position to
    the closest index] hold in [env_slide]. *)
Theorem C6_toIndex_stops_on_plateau :
  toIndex env_center (-50) = 0%Z /\
  toPosition env_center 0 true == toPosition env_center 1 true /\
  Qabs (toPosition env_center 2 true - (-50)) == 0 /\
  Qabs (toPosition env_center 0 true - (-50)) == 50 /\
  map (toIndex env_slide) [0; -100; -101; -200; -300; -301]
    = [0; 0; 1; 1; 1; 2]%Z.
Proof. repeat split; vm_compute; reflexivity. Qed.

(** ** Further properties of the component *)

Lemma loop_not_loop_type (env : Env) (w : bool) (cur x : Q) :
  is_type (e_options env) LOOP = false -> loop env w cur x = x.
Proof. intro H. unfold loop. rewrite H, andb_false_r. reflexivity. Qed.

Lemma loop_waiting (env : Env) (cur x : Q) : loop env true cur x = x.
Proof. reflexivity. Qed.

(** The cases where [translate] does not wrap. *)
Lemma translate_unwrapped :
  forall (env : Env) (s : MState) (p : Q) (preventLoop : bool),
    (preventLoop = true \/ is_type (e_options env) LOOP = false
     \/ ms_waiting s = true) ->
    ms_position (translate env s p preventLoop) = p /\
    ms_log (translate env s p preventLoop) = ms_log s ++ [Rule p] /\
    ms_waiting (translate env s p preventLoop) = ms_waiting s /\
    ms_pending (translate env s p preventLoop) = ms_pending s.
Proof.
  intros env s p pl H. unfold translate.
  assert (E : (if pl then p else loop env (ms_waiting s) (ms_position s) p) = p).
  { destruct H as [->|[H|H]]; [reflexivity| |].
    - destruct pl; [reflexivity|]. apply loop_not_loop_type; exact H.
    - destruct pl; [reflexivity|]. rewrite H. apply loop_waiting. }
  rewrite E. repeat split; reflexivity.
Qed.

(** In ['slide'] mode with [trimSpace] set, [jump(index)] places the list
    between [0] and [orient(sliderSize() - listSize())] for every index,
    also for indices out of range. *)
Theorem jump_within_trim :
  forall (env : Env) (s : MState) (index : Z),
    trimSpace_truthy (o_trimSpace (e_options env))
    && is_type (e_options env) SLIDE = true ->
    let b := orient (o_direction (e_options env))
                    (e_sliderSize env - e_listSize env) in
    Qmin 0 b <= ms_position (jump env s index) <= Qmax 0 b.
Proof.
  intros env s index H b. unfold jump.
  assert (HL : is_type (e_options env) LOOP = false).
  { apply andb_true_iff in H. destruct H as [_ H].
    unfold is_type in *. destruct (o_type (e_options env)); congruence. }
  rewrite (proj1 (translate_unwrapped env s _ false (or_intror (or_introl HL)))).
  unfold toPosition, trim. rewrite H. apply clamp_spec.
Qed.

Lemma jump_within_trim_witness :
  -800 <= ms_position (jump env_slide (init 0) 4) <= 0 /\
  ms_log (jump env_slide (init 0) 4) = [Rule (toPosition env_slide 4 true)].
Proof.
  split.
  - pose proof (jump_within_trim env_slide (init 0) 4 eq_refl) as H.
    vm_compute in H. vm_compute. exact H.
  - reflexivity.
Defined.

Lemma toIndex_loop_result (env : Env) (l : list Z) (idx : Z) (m : option Q)
    (x : Q) :
  In (toIndex_loop env l idx m x) (idx :: l).
Proof.
  revert idx m. induction l as [|a rest IH]; intros idx m; [left; reflexivity|].
  rewrite toIndex_loop_cons.
  destruct (match m with None => true | Some m => _ end).
  - destruct (IH a (Some (Qabs (toPosition env a true - x)))) as [H|H];
      right; [left; exact H | right; exact H].
  - left; reflexivity.
Qed.

(** [toIndex] returns an index of the slide registry, or [0] when the
    registry is empty. *)
Theorem toIndex_in_registry :
  forall (env : Env) (x : Q),
    (e_slides env = [] -> toIndex env x = 0%Z) /\
    (e_slides env <> [] -> In (toIndex env x) (e_slides env)).
Proof.
  intros env x. unfold toIndex. split.
  - intros ->. reflexivity.
  - destruct (e_slides env) as [|a rest]; [congruence|]. intros _.
    rewrite toIndex_loop_cons. apply toIndex_loop_result.
Qed.

Lemma toIndex_in_registry_witness :
  In (toIndex env_center (-50)) (e_slides env_center) /\
  toIndex (uniform (opts SLIDE FocusNone TrimOn true) 0 200 200 0) 100 = 0%Z.
Proof.
  split.
  - apply (proj2 (toIndex_in_registry env_center (-50))). discriminate.
  - apply (proj1 (toIndex_in_registry _ 100)). reflexivity.
Defined.

(** The first slide of the registry is always found back from its own
    trimmed offset, whatever the geometry. *)
Theorem toIndex_first_slide :
  forall (env : Env) (a : Z) (rest : list Z),
    e_slides env = a :: rest -> toIndex env (toPosition env a true) = a.
Proof.
  intros env a rest H. unfold toIndex. rewrite H, toIndex_loop_cons.
  destruct rest as [|b rest']; [reflexivity|].
  rewrite toIndex_loop_cons.
  assert (Hf : qltb (Qabs (toPosition env b true - toPosition env a true))
                    (Qabs (toPosition env a true - toPosition env a true)) = false).
  { apply qltb_false.
    assert (Z0 : Qabs (toPosition env a true - toPosition env a true) == 0)
      by (rewrite Qabs_pos; lra).
    pose proof (Qabs_nonneg (toPosition env b true - toPosition env a true)). lra. }
  rewrite Hf. reflexivity.
Qed.

Lemma toIndex_first_slide_witness :
  toIndex env_center (toPosition env_center 0 true) = 0%Z.
Proof. apply (toIndex_first_slide env_center 0 (map Z.of_nat (seq 1 7))). reflexivity. Defined.

Lemma loop_branches (env : Env) (cur x : Q) :
  is_type (e_options env) LOOP = true ->
  let d := o_direction (e_options env) in
  let S := e_sliderSize env in
  ((orient d x < orient d (getLimit env false) /\ orient d (x - cur) < 0) ->
     loop env false cur x
     = x - sign (x - getLimit env false) * S
           * inject_Z (Qceiling (Qabs (x - getLimit env false) / S))) /\
  ((orient d (getLimit env true) < orient d x /\ 0 < orient d (x - cur)) ->
     loop env false cur x
     = x - sign (x - getLimit env true) * S
           * inject_Z (Qceiling (Qabs (x - getLimit env true) / S))).
Proof.
  intros Hl d S. unfold loop, exceededLimit. rewrite Hl.
  cbv beta iota zeta delta [negb andb orb]. fold d.
  split; intros [Hx Hd].
  - assert (E : qltb 0 (orient d (x - cur)) = false) by (apply qltb_false; lra).
    apply qltb_spec in Hx. apply qltb_spec in Hd. rewrite Hx, Hd, E. cbv beta iota.
    destruct (qltb (orient d (getLimit env true)) (orient d x)); reflexivity.
  - assert (E : qltb (orient d (x - cur)) 0 = false) by (apply qltb_false; lra).
    apply qltb_spec in Hx. apply qltb_spec in Hd. rewrite Hx, Hd, E. cbv beta iota.
    destruct (qltb (orient d x) (orient d (getLimit env false))); reflexivity.
Qed.

Lemma ceil_fold (a S : Q) :
  0 < S -> 0 <= a -> a <= S * inject_Z (Qceiling (a / S)) < a + S.
Proof.
  intros HS Ha.
  pose proof (Qle_ceiling (a / S)) as H1. pose proof (Qceiling_lt (a / S)) as H2.
  set (c := Qceiling (a / S)) in *.
  assert (Hc : inject_Z (c - 1) == inject_Z c - 1).
  { unfold Qeq, inject_Z. simpl. lia. }
  rewrite Hc in H2.
  assert (Hq : a / S * S == a) by (field; lra).
  split; nra.
Qed.

Lemma sign_pos (e : Q) : 0 < e -> sign e = 1.
Proof.
  intro H. unfold sign. replace (qltb 0 e) with true by (symmetry; apply qltb_spec; lra).
  reflexivity.
Qed.

Lemma sign_neg (e : Q) : e < 0 -> sign e = -1.
Proof.
  intro H. unfold sign.
  replace (qltb 0 e) with false by (symmetry; apply qltb_false; lra).
  replace (qltb e 0) with true by (symmetry; apply qltb_spec; lra).
  reflexivity.
Qed.

Lemma fold_window (x L S : Q) :
  0 < S -> x <> L ->
  let r := x - sign (x - L) * S * inject_Z (Qceiling (Qabs (x - L) / S)) in
  (L < x -> - S < r - L <= 0) /\ (x < L -> 0 <= r - L < S).
Proof.
  intros HS _ r. split; intro H; unfold r.
  - rewrite sign_pos by lra. rewrite Qabs_pos by lra.
    pose proof (ceil_fold (x - L) S HS) as F. lra.
  - rewrite sign_neg by lra. rewrite Qabs_neg by lra.
    pose proof (ceil_fold (- (x - L)) S HS) as F. lra.
Qed.

(** In loop mode with the Waiting flag clear and a positive content length,
    an offset folded back from past the minimum limit lands within one
    content length on the inner side of that limit
    ([0 <= orient(result) - orient(min) < sliderSize()]), and one folded back
    from past the maximum limit within one content length inside the
    maximum ([-sliderSize() < orient(result) - orient(max) <= 0]). *)
Theorem loop_fold_window :
  forall (env : Env) (cur x : Q),
    is_type (e_options env) LOOP = true -> 0 < e_sliderSize env ->
    let d := o_direction (e_options env) in
    let S := e_sliderSize env in
    ((orient d x < orient d (getLimit env false) /\ orient d (x - cur) < 0) ->
       0 <= orient d (loop env false cur x) - orient d (getLimit env false) < S) /\
    ((orient d (getLimit env true) < orient d x /\ 0 < orient d (x - cur)) ->
       - S < orient d (loop env false cur x) - orient d (getLimit env true) <= 0).
Proof.
  intros env cur x Hl HS d S.
  destruct (loop_branches env cur x Hl) as [Bmin Bmax]. fold d S in Bmin, Bmax.
  split; intros Hc.
  - rewrite (Bmin Hc). set (L := getLimit env false) in *. destruct Hc as [Hx _].
    assert (Hne : x <> L) by (intro E; subst; lra).
    destruct (fold_window x L S HS Hne) as [F1 F2].
    unfold d in *; destruct (o_direction (e_options env)); cbn [orient] in *;
      [specialize (F1 ltac:(lra)) | specialize (F2 ltac:(lra)) | specialize (F1 ltac:(lra))];
      lra.
  - rewrite (Bmax Hc). set (L := getLimit env true) in *. destruct Hc as [Hx _].
    assert (Hne : x <> L) by (intro E; subst; lra).
    destruct (fold_window x L S HS Hne) as [F1 F2].
    unfold d in *; destruct (o_direction (e_options env)); cbn [orient] in *;
      [specialize (F2 ltac:(lra)) | specialize (F1 ltac:(lra)) | specialize (F2 ltac:(lra))];
      lra.
Qed.

Lemma loop_fold_window_witness :
  0 <= orient LTR (loop (env_loop 5) false 0 1250) - orient LTR 0 < 1000.
Proof.
  pose proof (proj1 (loop_fold_window (env_loop 5) 0 1250 eq_refl eq_refl)) as H.
  apply H. split; vm_compute; reflexivity.
Defined.

(** ** Runs of the motion state machine *)

Lemma on_complete_fields (env : Env) (s : MState) (p : Pending) :
  ms_state (on_complete env s p) = IDLE /\
  ms_waiting (on_complete env s p) = false /\
  ms_pending (on_complete env s p) = ms_pending s.
Proof.
  unfold on_complete.
  destruct ((match o_trimSpace (e_options env) with TrimMove => true | _ => false end)
            && _ && _)%bool;
    [| destruct (pd_callback p)]; destruct (pd_looping p); repeat split.
Qed.

Lemma motion_inv_step (env : Env) (s : MState) (op : Op) :
  motion_inv s -> motion_inv (step env s op).
Proof.
  intros [I1 [I2 I3]]. destruct op as [d i pr cb|i|p pl| |pa|i]; simpl.
  - unfold move. destruct (isBusy s) eqn:B; simpl; [repeat split; auto|].
    repeat split; simpl; try discriminate.
    intros p0 Hp Hl. injection Hp as <-. simpl in Hl. rewrite Hl. reflexivity.
  - repeat split; auto.
  - repeat split; auto.
  - unfold cancel. repeat split; simpl; try discriminate; congruence.
  - unfold complete. destruct (ms_pending s) as [p|] eqn:E.
    + destruct (on_complete_fields env (set_pending (set_position s pa) None) p)
        as [F1 [F2 F3]]. simpl in F3.
      repeat split; intros; try congruence.
    + unfold motion_inv. rewrite E. repeat split; auto.
  - repeat split; auto.
Qed.

(** Every state a run of Move's operations reaches from the initial state
    keeps [motion_inv]. *)
Theorem motion_inv_run :
  forall (env : Env) (p0 : Q) (ops : list Op), motion_inv (run env (init p0) ops).
Proof.
  intros env p0 ops. unfold run.
  assert (H0 : motion_inv (init p0)) by (repeat split; simpl; intros; discriminate || congruence).
  revert H0. generalize (init p0). induction ops as [|op ops IH]; intros s H; simpl.
  - exact H.
  - apply IH. apply motion_inv_step. exact H.
Qed.

(** An accepted [move] followed by the completion signal returns to [IDLE]
    with the Waiting flag clear and nothing pending; the effects start with
    [EVENT_MOVE] and [Transition.start], and [EVENT_MOVED] carries the same
    [(index, prev, dest)]. *)
Theorem move_complete_cycle :
  forall (env : Env) (s : MState) (dest index prev : Z) (cb : Callback) (pa : Q),
    isBusy s = false ->
    let s2 := complete env (move env s dest index prev cb) pa in
    ms_state s2 = IDLE /\ ms_waiting s2 = false /\ ms_pending s2 = None /\
    exists mid tail,
      ms_log s2 = ms_log s ++ [EmitMove index prev dest; TransitionStart dest]
                  ++ mid ++ EmitMoved index prev dest :: tail /\
      (length mid <= 1)%nat /\ (length tail <= 1)%nat.
Proof.
  intros env s dest index prev cb pa B s2.
  unfold s2, complete, move. rewrite B. cbn [negb ms_pending set_pending].
  set (p := {| pd_dest := dest; pd_index := index; pd_prev := prev;
               pd_callback := cb; pd_position := ms_position s;
               pd_looping := negb (dest =? index)%Z |}).
  set (s0 := set_pending (set_position _ pa) None).
  destruct (on_complete_fields env s0 p) as [F1 [F2 F3]].
  split; [exact F1|]. split; [exact F2|]. split; [exact F3|].
  unfold on_complete. unfold p at 1; cbn [pd_looping].
  destruct (negb (dest =? index)%Z);
  [ exists [Rule (ms_position (jump env s0 index))] | exists [] ];
  destruct ((match o_trimSpace (e_options env) with TrimMove => true | _ => false end)
            && _ && _)%bool;
  [ eexists | | eexists | ];
  try (destruct cb as [c|]; [exists [CallCallback c] | exists []]);
  simpl; rewrite <- ?app_assoc; simpl; (split; [reflexivity | simpl; lia]).
Qed.

Lemma move_complete_cycle_witness :
  ms_state (complete env_slide (move env_slide (init 0) 1 1 0 None) (-200)) = IDLE.
Proof.
  apply (move_complete_cycle env_slide (init 0) 1 1 0 None (-200)). reflexivity.
Defined.

(** In every reachable state, completing a looping move (one that went to a
    clone) re-places the list at exactly [toPosition(index, true)]: the
    completion's [jump] runs while the Waiting flag is still set, so it is
    never wrapped again. *)
Theorem complete_looping_exact :
  forall (env : Env) (p0 : Q) (ops : list Op) (pa : Q) (p : Pending),
    let s := run env (init p0) ops in
    ms_pending s = Some p -> pd_looping p = true ->
    ms_position (complete env s pa) = toPosition env (pd_index p) true.
Proof.
  intros env p0 ops pa p s Hp Hl.
  destruct (motion_inv_run env p0 ops) as [_ [I2 _]]. fold s in I2.
  specialize (I2 p Hp Hl).
  unfold complete. rewrite Hp. unfold on_complete. rewrite Hl.
  unfold jump, translate. cbn [ms_waiting set_pending set_position emit].
  rewrite I2. rewrite loop_waiting.
  destruct ((match o_trimSpace (e_options env) with TrimMove => true | _ => false end)
            && _ && _)%bool; [reflexivity|].
  destruct (pd_callback p); reflexivity.
Qed.

Lemma complete_looping_exact_witness :
  ms_position (complete (env_loop 5) (run (env_loop 5) (init 0) [OpMove 5 0 (-1) None]) 200)
  = toPosition (env_loop 5) 0 true.
Proof.
  apply (complete_looping_exact (env_loop 5) 0 [OpMove 5 0 (-1) None] 200
           {| pd_dest := 5; pd_index := 0; pd_prev := -1; pd_callback := None;
              pd_position := 0; pd_looping := true |}); reflexivity.
Defined.
